(** * The daily poll bot of [script.py]: a shallow embedding

    The development follows the class [TelegramPollBot]: the calendar
    arithmetic of [get_week_start], the vote pipeline
    [process_updates] / [aggregate_votes], the registry expiry
    [clean_old_polls] and the orchestration of [run_daily_task].

    Python values are modelled as follows: [int] is [Z]; [str] is
    [string]; a dictionary used as a finite map is a [gmap]; the set
    [processed_polls] is a [gset]; the dictionary [user_votes], whose
    insertion order is the iteration order of [aggregate_votes], is an
    association list; an optional key of a JSON object is an [option]
    field of a record. *)

From Stdlib Require Import ZArith String Ascii List Lia DecimalString.
From stdpp Require Import gmap strings list fin_maps.

Local Open Scope Z_scope.

(** ** The part of [datetime] the script relies on

    A date is its proleptic Gregorian ordinal ([date.toordinal()]): day
    1 is 0001-01-01, a Monday. The definitions transcribe the helper
    functions of CPython's [datetime] module. *)
Module Calendar.

Definition is_leap (year : Z) : bool :=
  (year mod 4 =? 0) && (negb (year mod 100 =? 0) || (year mod 400 =? 0)).

Definition days_before_year (year : Z) : Z :=
  let y := year - 1 in y * 365 + y / 4 - y / 100 + y / 400.

Definition DAYS_IN_MONTH (month : Z) : Z :=
  match month with
  | 1 => 31 | 2 => 28 | 3 => 31 | 4 => 30 | 5 => 31 | 6 => 30
  | 7 => 31 | 8 => 31 | 9 => 30 | 10 => 31 | 11 => 30 | 12 => 31
  | _ => -1
  end.

Definition DAYS_BEFORE_MONTH (month : Z) : Z :=
  match month with
  | 1 => 0 | 2 => 31 | 3 => 59 | 4 => 90 | 5 => 120 | 6 => 151
  | 7 => 181 | 8 => 212 | 9 => 243 | 10 => 273 | 11 => 304 | 12 => 334
  | _ => -1
  end.

Definition days_in_month (year month : Z) : Z :=
  if (month =? 2) && is_leap year then 29 else DAYS_IN_MONTH month.

Definition days_before_month (year month : Z) : Z :=
  DAYS_BEFORE_MONTH month + (if (2 <? month) && is_leap year then 1 else 0).

Definition ymd2ord (year month day : Z) : Z :=
  days_before_year year + days_before_month year month + day.

Definition DI400Y : Z := 146097.
Definition DI100Y : Z := 36524.
Definition DI4Y : Z := 1461.

Definition ord2ymd (ordinal : Z) : Z * Z * Z :=
  let n := ordinal - 1 in
  let n400 := n / DI400Y in
  let n := n mod DI400Y in
  let year := n400 * 400 + 1 in
  let n100 := n / DI100Y in
  let n := n mod DI100Y in
  let n4 := n / DI4Y in
  let n := n mod DI4Y in
  let n1 := n / 365 in
  let n := n mod 365 in
  let year := year + n100 * 100 + n4 * 4 + n1 in
  if (n1 =? 4) || (n100 =? 4) then (year - 1, 12, 31)
  else
    let leapyear := (n1 =? 3) && (negb (n4 =? 24) || (n100 =? 3)) in
    let month := Z.shiftr (n + 50) 5 in
    let preceding :=
      DAYS_BEFORE_MONTH month + (if (2 <? month) && leapyear then 1 else 0) in
    if n <? preceding then
      let month := month - 1 in
      let preceding :=
        preceding
        - (DAYS_IN_MONTH month + (if (month =? 2) && leapyear then 1 else 0)) in
      (year, month, n - preceding + 1)
    else (year, month, n - preceding + 1).

(** [date.weekday()]: Monday is 0 and Sunday is 6. *)
Definition weekday (ordinal : Z) : Z := (ordinal + 6) mod 7.

(** [str(n)] for an integer. *)
Definition str (z : Z) : string := NilZero.string_of_int (Z.to_int z).

Fixpoint zeros (n : nat) : string :=
  match n with O => EmptyString | S n => String "0" (zeros n) end.

Definition zfill (width : nat) (s : string) : string :=
  (zeros (width - String.length s) ++ s)%string.

(** [d.strftime("%Y-%m-%d")] for a date of the four-digit years. *)
Definition strftime (ordinal : Z) : string :=
  let '(y, m, d) := ord2ymd ordinal in
  (zfill 4 (str y) ++ "-" ++ zfill 2 (str m) ++ "-" ++ zfill 2 (str d))%string.

Definition digit (c : ascii) : option Z :=
  let n := Z.of_N (N_of_ascii c) in
  if (48 <=? n) && (n <=? 57) then Some (n - 48) else None.

(** The directive [%Y]: four digits. *)
Definition parse_Y (s : string) : option (Z * string) :=
  match s with
  | String a (String b (String c (String d rest))) =>
      match digit a, digit b, digit c, digit d with
      | Some a, Some b, Some c, Some d =>
          Some (1000 * a + 100 * b + 10 * c + d, rest)
      | _, _, _, _ => None
      end
  | _ => None
  end.

(** The directive [%m]: the alternatives [1[0-2]], [0[1-9]], [[1-9]],
    tried in that order. *)
Definition parse_m (s : string) : option (Z * string) :=
  match s with
  | String a rest =>
      match digit a with
      | Some 0 =>
          match rest with
          | String b rest' =>
              match digit b with
              | Some x => if 1 <=? x then Some (x, rest') else None
              | None => None
              end
          | EmptyString => None
          end
      | Some 1 =>
          match rest with
          | String b rest' =>
              match digit b with
              | Some x => if x <=? 2 then Some (10 + x, rest') else Some (1, rest)
              | None => Some (1, rest)
              end
          | EmptyString => Some (1, rest)
          end
      | Some x => Some (x, rest)
      | None => None
      end
  | EmptyString => None
  end.

(** The directive [%d]: the alternatives [3[0-1]], [[1-2]\d], [0[1-9]],
    [[1-9]], and a space followed by [[1-9]], tried in that order. *)
Definition parse_d (s : string) : option (Z * string) :=
  match s with
  | String a rest =>
      let two (lead : Z) (ok : Z -> bool) (single : option (Z * string)) :=
        match rest with
        | String b rest' =>
            match digit b with
            | Some x => if ok x then Some (10 * lead + x, rest') else single
            | None => single
            end
        | EmptyString => single
        end in
      match digit a with
      | Some 0 => two 0 (fun x => 1 <=? x) None
      | Some 1 => two 1 (fun _ => true) (Some (1, rest))
      | Some 2 => two 2 (fun _ => true) (Some (2, rest))
      | Some 3 => two 3 (fun x => x <=? 1) (Some (3, rest))
      | Some x => Some (x, rest)
      | None =>
          if Ascii.eqb a " " then two 0 (fun x => 1 <=? x) None else None
      end
  | EmptyString => None
  end.

Definition expect_dash (s : string) : option string :=
  match s with
  | String c rest => if Ascii.eqb c "-" then Some rest else None
  | EmptyString => None
  end.

(** [datetime.strptime(s, "%Y-%m-%d")], as the ordinal of the parsed
    date; [None] stands for [ValueError] (no match, unconverted data or
    a date out of range). Digits are the ASCII digits. *)
Definition strptime (s : string) : option Z :=
  match parse_Y s with
  | Some (y, s) =>
      match expect_dash s with
      | Some s =>
          match parse_m s with
          | Some (m, s) =>
              match expect_dash s with
              | Some s =>
                  match parse_d s with
                  | Some (d, EmptyString) =>
                      if (1 <=? y) && (d <=? days_in_month y m)
                      then Some (ymd2ord y m d) else None
                  | _ => None
                  end
              | None => None
              end
          | None => None
          end
      | None => None
      end
  | None => None
  end.

End Calendar.

(** ** Data model *)

(** A Telegram user, as found under ["user"] in a poll answer. *)
Record User := {
  u_id : Z;
  u_username : option string;
  u_first_name : option string
}.

(** The payload under ["poll_answer"]. *)
Record PollAnswer := {
  pa_poll_id : string;
  pa_user : User;
  pa_option_ids : list Z
}.

(** One element of the result of [getUpdates]. *)
Record Update := {
  update_id : option Z;
  poll_answer : option PollAnswer
}.

(** A value of the dictionary [user_votes]. *)
Record Vote := {
  v_username : string;
  v_poll_id : string;
  vote_value : Z
}.

(** A value of the dictionary [active_polls]. *)
Record PollInfo := {
  message_id : Z;
  date : option string
}.

(** The dictionary returned by [load_data] and written by [save_data]. *)
Record Data := {
  current_week_start : option string;
  active_polls : gmap string PollInfo;
  votes : gmap string Z;
  processed_polls : gset string;
  last_update_id : option Z
}.

Definition set_active_polls (a : gmap string PollInfo) (data : Data) : Data :=
  {| current_week_start := current_week_start data;
     active_polls := a;
     votes := votes data;
     processed_polls := processed_polls data;
     last_update_id := last_update_id data |}.

Definition set_votes (v : gmap string Z) (data : Data) : Data :=
  {| current_week_start := current_week_start data;
     active_polls := active_polls data;
     votes := v;
     processed_polls := processed_polls data;
     last_update_id := last_update_id data |}.

Definition set_processed_polls (p : gset string) (data : Data) : Data :=
  {| current_week_start := current_week_start data;
     active_polls := active_polls data;
     votes := votes data;
     processed_polls := p;
     last_update_id := last_update_id data |}.

Definition set_last_update_id (n : Z) (data : Data) : Data :=
  {| current_week_start := current_week_start data;
     active_polls := active_polls data;
     votes := votes data;
     processed_polls := processed_polls data;
     last_update_id := Some n |}.

(** [data.get("last_update_id", 0)]. *)
Definition cursor (data : Data) : Z := default 0 (last_update_id data).

(** Requests sent through [send_request]. The text of a summary is a
    rendering of the scores it is built from; the call records those. *)
Inductive Call :=
  | sendPoll
  | getUpdates (offset : Z)
  | sendMessage (scores : gmap string Z).

(** ** The bot *)

(** [load_data]: the stored dictionary, or the initial one when the file
    is missing or cannot be decoded ([None]). *)
Definition load_data (file : option Data) : Data :=
  match file with
  | Some data => data
  | None =>
      {| current_week_start := None;
         active_polls := ∅;
         votes := ∅;
         processed_polls := ∅;
         last_update_id := Some 0 |}
  end.

(** The local [monday] of [get_week_start]. *)
Definition get_week_start_monday (date : Z) : Z :=
  let days_since_monday := Calendar.weekday date in
  date - (days_since_monday + 1).

Definition get_week_start (date : Z) : string :=
  Calendar.strftime (get_week_start_monday date).

(** The expression bound to [username] in [process_updates]:
    [user.get("username") or user.get("first_name", f"User_{user_id}")]. *)
Definition username_of (user : User) : string :=
  let user_id := Calendar.str (u_id user) in
  match u_username user with
  | Some (String c s) => String c s
  | _ =>
      match u_first_name user with
      | Some first_name => first_name
      | None => ("User_" ++ user_id)%string
      end
  end.

(** [f"{username}_{poll_id}"]. *)
Definition vote_key_of (username poll_id : string) : string :=
  (username ++ "_" ++ poll_id)%string.

(** [vote_key in user_votes]. *)
Definition has_key (vote_key : string) (user_votes : list (string * Vote)) : bool :=
  existsb (String.eqb vote_key) (map fst user_votes).

(** The body of the loop of [process_updates] on the pair
    [(user_votes, highest_update_id)]. *)
Definition process_update (active_polls : gset string)
    (st : list (string * Vote) * Z) (update : Update) : list (string * Vote) * Z :=
  let '(user_votes, highest_update_id) := st in
  let update_id := default 0 (update_id update) in
  let highest_update_id := Z.max highest_update_id update_id in
  match poll_answer update with
  | Some poll_answer =>
      let poll_id := pa_poll_id poll_answer in
      if decide (poll_id ∈ active_polls) then
        let username := username_of (pa_user poll_answer) in
        match pa_option_ids poll_answer with
        | first :: _ =>
            let vote_value := first + 1 in
            let vote_key := vote_key_of username poll_id in
            if has_key vote_key user_votes then (user_votes, highest_update_id)
            else
              (user_votes ++
                 [(vote_key,
                   {| v_username := username;
                      v_poll_id := poll_id;
                      vote_value := vote_value |})],
               highest_update_id)
        | [] => (user_votes, highest_update_id)
        end
      else (user_votes, highest_update_id)
  | None => (user_votes, highest_update_id)
  end.

Definition process_updates (updates : list Update) (active_polls : gset string)
    : list (string * Vote) * Z :=
  fold_left (process_update active_polls) updates ([], 0).

(** The body of the loop of [aggregate_votes]. *)
Definition add_vote (total_votes : gmap string Z) (item : string * Vote)
    : gmap string Z :=
  let username := v_username (snd item) in
  let vote_value := vote_value (snd item) in
  let total_votes :=
    match total_votes !! username with
    | None => <[username := 0]> total_votes
    | Some _ => total_votes
    end in
  <[username := default 0 (total_votes !! username) + vote_value]> total_votes.

Definition aggregate_votes (poll_votes : list (string * Vote))
    (existing_votes : gmap string Z) : gmap string Z :=
  fold_left add_vote poll_votes existing_votes.

(** [send_weekly_summary]: one [sendMessage] request; a failure of the
    request is caught and logged. *)
Definition send_weekly_summary (votes : gmap string Z) : list Call :=
  [sendMessage votes].

Section Bot.

(** [datetime.strptime(_, "%Y-%m-%d")] as the ordinal of the parsed
    date, [None] for [ValueError]. [Calendar.strptime] is the instance
    used in the examples. *)
Variable strptime : string -> option Z.

(** Whether the loop of [clean_old_polls] appends the poll to
    [polls_to_remove]. With [current_date] the date of
    [datetime.now()] and [poll_date] a midnight, the [days] of their
    difference is the difference of the ordinals. *)
Definition to_remove (current_date : Z) (poll_info : PollInfo) : bool :=
  match date poll_info with
  | Some (String c s) =>
      match strptime (String c s) with
      | Some poll_date =>
          let days_old := current_date - poll_date in
          7 <? days_old
      | None => true
      end
  | _ => false
  end.

Definition polls_to_remove (current_date : Z) (data : Data) : list string :=
  map fst
    (filter (fun item => to_remove current_date (snd item) = true)
       (map_to_list (active_polls data))).

Definition remove_poll (data : Data) (poll_id : string) : Data :=
  set_processed_polls (processed_polls data ∖ {[poll_id]})
    (set_active_polls (delete poll_id (active_polls data)) data).

Definition clean_old_polls (current_date : Z) (data : Data) : Data :=
  fold_left remove_poll (polls_to_remove current_date data) data.

(** ** [run_daily_task] *)

(** What a run reads from outside: the clock at line 237, the answer of
    the gateway to [getUpdates] (the empty list when the request fails),
    its answer to [sendPoll] ([None] when [post_poll] raises), and the
    clock inside [clean_old_polls]. *)
Record Env := {
  now : Z;
  fetched : list Update;
  posted : option (string * Z);
  clean_now : Z
}.

Inductive Exception :=
  | UnboundLocalError (name : string).

Inductive Outcome :=
  | Raised (e : Exception) (calls : list Call)
  | Saved (data : Data) (calls : list Call).

(** Lines 240-259: the block guarded by [if updates:]. *)
Definition consume_updates (updates : list Update) (data : Data) : Data :=
  match updates with
  | [] => data
  | _ :: _ =>
      let active_poll_ids := dom (active_polls data) in
      let '(poll_votes, highest_update_id) :=
        process_updates updates active_poll_ids in
      let data :=
        if cursor data <? highest_update_id
        then set_last_update_id highest_update_id data
        else data in
      match poll_votes with
      | [] => data
      | _ :: _ => set_votes (aggregate_votes poll_votes (votes data)) data
      end
  end.

(** Line 261 reads [if now.weekday() == 6 and:]: the right operand of
    [and] is not in the source. [and_operand] stands for the value it
    would have; nothing is assumed of it. *)
Variable and_operand : bool.

(** Lines 260-277, with the condition of line 261 as far as the source
    gives it. *)
Definition week_cycle (now : Z) (current_week : string) (data : Data)
    : Data * list Call :=
  if (Calendar.weekday now =? 6) && and_operand then
    let calls :=
      if decide (votes data = ∅) then [] else send_weekly_summary (votes data) in
    let last_update_id := cursor data in
    ({| current_week_start := Some current_week;
        active_polls := ∅;
        votes := ∅;
        processed_polls := ∅;
        last_update_id := Some last_update_id |},
     calls)
  else (data, []).

(** Lines 284-293. *)
Definition register_poll (posted : option (string * Z)) (current_date : string)
    (data : Data) : Data :=
  match posted with
  | Some (poll_id, message_id) =>
      set_active_polls
        (<[poll_id := {| message_id := message_id; date := Some current_date |}]>
           (active_polls data))
        data
  | None => data
  end.

(** The body of [run_daily_task]. The local [updates] is read at line
    240 and assigned at line 281 only; [local] is its binding when line
    240 is reached. *)
Definition run_daily_task_from (local : option (list Update)) (env : Env)
    (file : option Data) : Outcome :=
  let data := load_data file in
  let current_week := get_week_start (now env) in
  let current_date := Calendar.strftime (now env) in
  match local with
  | None => Raised (UnboundLocalError "updates") []
  | Some updates =>
      let data := consume_updates updates data in
      let '(data, calls) := week_cycle (now env) current_week data in
      let calls := calls ++ [getUpdates (cursor data + 1)] in
      let updates := fetched env in
      let calls := calls ++ [sendPoll] in
      let data := register_poll (posted env) current_date data in
      let data := clean_old_polls (clean_now env) data in
      Saved data calls
  end.

(** No assignment to [updates] precedes line 240. *)
Definition run_daily_task (env : Env) (file : option Data) : Outcome :=
  run_daily_task_from None env file.

(** The content of the data file once the run is over: [save_data] is
    the last statement of [run_daily_task]. *)
Definition file_after (file : option Data) (o : Outcome) : option Data :=
  match o with
  | Saved data _ => Some data
  | Raised _ _ => file
  end.

End Bot.

(** ** Vocabulary of the properties *)

Local Open Scope string_scope.
Local Open Scope list_scope.

(** The sequence number the loop reads: [update.get("update_id", 0)]. *)
Definition seq_of (update : Update) : Z := default 0 (update_id update).

(** The dictionary [user_votes] after one iteration of the loop. *)
Definition record_vote (active : gset string) (user_votes : list (string * Vote))
    (update : Update) : list (string * Vote) :=
  fst (process_update active (user_votes, 0) update).

(** An event the scan passes over: no poll-answer payload, a poll id
    outside the active set, or no selected option. *)
Definition ignored (active : gset string) (update : Update) : Prop :=
  poll_answer update = None \/
  exists pa, poll_answer update = Some pa /\
             (pa_poll_id pa ∉ active \/ pa_option_ids pa = []).

(** The entry the loop of [process_updates] tries to record for an
    event: none for an event it passes over. *)
Definition candidate (active : gset string) (update : Update)
    : option (string * Vote) :=
  match poll_answer update with
  | Some pa =>
      if decide (pa_poll_id pa ∈ active) then
        match pa_option_ids pa with
        | first :: _ =>
            let username := username_of (pa_user pa) in
            Some (vote_key_of username (pa_poll_id pa),
                  {| v_username := username;
                     v_poll_id := pa_poll_id pa;
                     vote_value := first + 1 |})
        | [] => None
        end
      else None
  | None => None
  end.

(** Every score of [t] is present in [t'] with a value at least as large. *)
Definition scores_le (t t' : gmap string Z) : Prop :=
  forall k v, t !! k = Some v -> exists v', t' !! k = Some v' /\ v <= v'.

Definition scores_nonneg (t : gmap string Z) : Prop :=
  forall k v, t !! k = Some v -> 0 <= v.

(** An event whose first selected option index, if it has one, is not
    negative. *)
Definition first_index_ok (update : Update) : Prop :=
  forall pa first rest,
    poll_answer update = Some pa -> pa_option_ids pa = first :: rest ->
    0 <= first.

(** The highest sequence number in a batch (0 for the empty batch). *)
Definition batch_max (batch : list Update) : Z :=
  match map seq_of batch with
  | [] => 0
  | x :: l => fold_left Z.max l x
  end.

(** The requests a run has sent. *)
Definition calls_of (o : Outcome) : list Call :=
  match o with
  | Raised _ calls => calls
  | Saved _ calls => calls
  end.

(** The registry of the expiry example: today is 2024-03-15 (ordinal
    738960). *)
Definition registry_2024_03_15 : Data :=
  {| current_week_start := Some "2024-03-10";
     active_polls :=
       {[ "p7" := {| message_id := 1; date := Some "2024-03-08" |};
          "p8" := {| message_id := 2; date := Some "2024-03-07" |};
          "bad" := {| message_id := 3; date := Some "08/03/2024" |};
          "blank" := {| message_id := 4; date := Some "" |} ]};
     votes := ∅;
     processed_polls := {["p7"; "p8"]};
     last_update_id := Some 3 |}.

(** The state of the reset example: cursor 42 and one score. *)
Definition state_42 : Data :=
  {| current_week_start := Some "2024-03-03";
     active_polls := {[ "p1" := {| message_id := 1; date := Some "2024-03-16" |} ]};
     votes := {[ "alice" := 5 ]};
     processed_polls := {[ "p1" ]};
     last_update_id := Some 42 |}.

(** The same surroundings with another answer to [getUpdates]. *)
Definition with_fetched (batch : list Update) (env : Env) : Env :=
  {| now := now env;
     fetched := batch;
     posted := posted env;
     clean_now := clean_now env |}.

(** ** The data file, the poll and the summary *)

(** The JSON document of the data file: the dictionary of [Data] with
    [processed_polls] as a list, or without that key. *)
Record FileData := {
  f_current_week_start : option string;
  f_active_polls : gmap string PollInfo;
  f_votes : gmap string Z;
  f_processed_polls : option (list string);
  f_last_update_id : option Z
}.

(** [save_data]: the copy in which the set [processed_polls] is turned
    into a list; [listing] is the order in which [list(...)] enumerates
    the set. *)
Definition save_data_as (listing : list string) (data : Data) : FileData :=
  {| f_current_week_start := current_week_start data;
     f_active_polls := active_polls data;
     f_votes := votes data;
     f_processed_polls := Some listing;
     f_last_update_id := last_update_id data |}.

Definition save_data (data : Data) : FileData :=
  save_data_as (elements (processed_polls data)) data.

(** Lines 47-48 of [load_data] and 234-235 of [run_daily_task]: a list
    becomes a set, a missing key the empty set. *)
Definition decode_file (f : FileData) : Data :=
  {| current_week_start := f_current_week_start f;
     active_polls := f_active_polls f;
     votes := f_votes f;
     processed_polls :=
       match f_processed_polls f with
       | Some l => list_to_set l
       | None => ∅
       end;
     last_update_id := f_last_update_id f |}.

(** [load_data] on the document of the file, [None] when the file is
    missing or is not JSON. *)
Definition load_file (file : option FileData) : Data :=
  load_data (decode_file <$> file).


(** [sorted(items, key=lambda x: x[1], reverse=True)]: the items by
    decreasing score, items of equal score in their order in [items]. *)
Fixpoint insert_vote (x : string * Z) (l : list (string * Z)) : list (string * Z) :=
  match l with
  | [] => [x]
  | y :: l' => if (snd x <? snd y)%Z then y :: insert_vote x l' else x :: y :: l'
  end.

Definition sorted_votes (items : list (string * Z)) : list (string * Z) :=
  foldr insert_vote [] items.

(** [f"{username}: {total_score}\n"]. *)
Definition summary_line (item : string * Z) : string :=
  (fst item ++ ": " ++ Calendar.str (snd item) ++ String "010" EmptyString)%string.

(** The [message] of [send_weekly_summary] for the items of [votes] in
    the order of the dictionary; [no_votes] and [heading] are the two
    literals of lines 185 and 187. *)
Definition summary_message (no_votes heading : string) (items : list (string * Z))
    : string :=
  match items with
  | [] => no_votes
  | _ :: _ =>
      fold_left (fun message item => (message ++ summary_line item)%string)
        (sorted_votes items) heading
  end.

(** A string without the character [_]. *)
Fixpoint no_underscore (s : string) : bool :=
  match s with
  | EmptyString => true
  | String c s => negb (Ascii.eqb c "_") && no_underscore s
  end.

(** The recorded votes of one respondent and the sum of their values. *)
Definition votes_of (username : string) (poll_votes : list (string * Vote))
    : list (string * Vote) :=
  filter (fun item => v_username (snd item) = username) poll_votes.

Definition sum_values (poll_votes : list (string * Vote)) : Z :=
  foldr (fun item acc => vote_value (snd item) + acc) 0 poll_votes.

(** The scores are in non-increasing order. *)
Fixpoint descending (l : list (string * Z)) : Prop :=
  match l with
  | [] => True
  | x :: l' => (forall y, y ∈ l' -> snd y <= snd x) /\ descending l'
  end.

(** What holds of [user_votes] all along the loop over [batch]: no key
    twice, and every entry is the candidate of an event of the batch. *)
Definition from_batch (active : gset string) (batch : list Update)
    (user_votes : list (string * Vote)) : Prop :=
  NoDup (map fst user_votes) /\
  forall k v, (k, v) ∈ user_votes ->
    exists update, update ∈ batch /\ candidate active update = Some (k, v).

(** * Properties *)

(** ** The calendar on concrete dates *)

Example strptime_2024_03_15 : Calendar.strptime "2024-03-15" = Some 738960.
Proof. reflexivity. Qed.

Example strftime_738960 : Calendar.strftime 738960 = "2024-03-15".
Proof. reflexivity. Qed.

Example weekday_2024_03_15 : Calendar.weekday 738960 = 4.
Proof. reflexivity. Qed.

Example strptime_empty : Calendar.strptime "" = None.
Proof. reflexivity. Qed.

Example strptime_day_out_of_range : Calendar.strptime "2023-02-29" = None.
Proof. reflexivity. Qed.

Example strptime_unconverted : Calendar.strptime "2024-03-08x" = None.
Proof. reflexivity. Qed.

(** ** [get_week_start] *)

Lemma weekday_range (date : Z) : 0 <= Calendar.weekday date < 7.
Proof. unfold Calendar.weekday. apply Z.mod_pos_bound. lia. Qed.

(** C4. For every date the day computed by [get_week_start] is a Sunday
    (weekday 6): the Monday that begins the date's week is
    [date - weekday date], and the function returns the day before it,
    never that Monday. On Monday 2024-03-11 the result is 2024-03-10 and
    not the date itself. *)
Theorem get_week_start_is_a_sunday :
  (forall date : Z, Calendar.weekday (get_week_start_monday date) = 6) /\
  (forall date : Z,
     Calendar.weekday (date - Calendar.weekday date) = 0 /\
     get_week_start_monday date = (date - Calendar.weekday date) - 1) /\
  Calendar.strftime 738956 = "2024-03-11" /\
  Calendar.weekday 738956 = 0 /\
  get_week_start 738956 = "2024-03-10".
Proof.
  split; [| split; [| repeat split]].
  - intros date. unfold get_week_start_monday, Calendar.weekday.
    pose proof (Z.div_mod (date + 6) 7 ltac:(lia)) as Hdm.
    pose proof (Z.mod_pos_bound (date + 6) 7 ltac:(lia)) as Hr.
    set (r := (date + 6) mod 7) in *.
    set (q := (date + 6) / 7) in *.
    replace (date - (r + 1) + 6) with (6 + (q - 1) * 7) by lia.
    rewrite Z.mod_add by lia. reflexivity.
  - intros date. split; [| unfold get_week_start_monday; lia].
    unfold Calendar.weekday.
    pose proof (Z.div_mod (date + 6) 7 ltac:(lia)) as Hdm.
    set (r := (date + 6) mod 7) in *.
    set (q := (date + 6) / 7) in *.
    replace (date - r + 6) with (0 + q * 7) by lia.
    rewrite Z.mod_add by lia. reflexivity.
Qed.

(** ** The respondent key *)

(** C9, as stated, fails: without a username the key is not a function
    of the numeric id. *)
Lemma username_of_not_from_id_alone :
  ~ (exists f : Z -> string,
       forall user : User,
         u_username user = None -> username_of user = f (u_id user)).
Proof.
  intros [f Hf].
  pose proof (Hf {| u_id := 7; u_username := None; u_first_name := Some "Dana" |}
                eq_refl) as H1.
  pose proof (Hf {| u_id := 7; u_username := None; u_first_name := Some "Noa" |}
                eq_refl) as H2.
  cbn in H1, H2. congruence.
Qed.

(** C9, amended. The key is the username when it is present and not
    empty; otherwise it is the first name when that is present; it is
    built from the numeric id, as [User_<id>], only when both are
    missing. It depends on nothing but the user record. *)
Theorem username_of_cases (id : Z) (c : ascii) (s : string)
    (first_name : option string) (name : string) :
  username_of {| u_id := id; u_username := Some (String c s);
                 u_first_name := first_name |} = String c s /\
  username_of {| u_id := id; u_username := None;
                 u_first_name := Some name |} = name /\
  username_of {| u_id := id; u_username := Some "";
                 u_first_name := Some name |} = name /\
  username_of {| u_id := id; u_username := None;
                 u_first_name := None |} = ("User_" ++ Calendar.str id)%string /\
  username_of {| u_id := id; u_username := Some "";
                 u_first_name := None |} = ("User_" ++ Calendar.str id)%string.
Proof. repeat split. Qed.

(** ** [process_updates] *)

Lemma process_update_split active user_votes highest update :
  process_update active (user_votes, highest) update =
  (record_vote active user_votes update, Z.max highest (seq_of update)).
Proof.
  unfold record_vote, process_update, seq_of.
  destruct (poll_answer update) as [pa|]; [| reflexivity].
  destruct (decide (pa_poll_id pa ∈ active)); [| reflexivity].
  destruct (pa_option_ids pa); [reflexivity |].
  destruct (has_key _ _); reflexivity.
Qed.

Lemma fold_process_update active updates user_votes highest :
  fold_left (process_update active) updates (user_votes, highest) =
  (fold_left (record_vote active) updates user_votes,
   fold_left Z.max (map seq_of updates) highest).
Proof.
  revert user_votes highest.
  induction updates as [| u updates IH]; intros user_votes highest; [reflexivity |].
  cbn [fold_left map]. rewrite process_update_split. apply IH.
Qed.

Lemma process_updates_eq updates active :
  process_updates updates active =
  (fold_left (record_vote active) updates [],
   fold_left Z.max (map seq_of updates) 0).
Proof. apply fold_process_update. Qed.

Lemma record_vote_ignored active user_votes update :
  ignored active update -> record_vote active user_votes update = user_votes.
Proof.
  unfold record_vote, process_update.
  intros [Hnone | (pa & Hpa & Hcase)].
  - rewrite Hnone. reflexivity.
  - rewrite Hpa. destruct (decide (pa_poll_id pa ∈ active)) as [Hin |]; [| reflexivity].
    destruct Hcase as [Hout | Hempty]; [contradiction |].
    rewrite Hempty. reflexivity.
Qed.

Lemma fold_max_ge (l : list Z) (h : Z) : h <= fold_left Z.max l h.
Proof.
  revert h. induction l as [| x l IH]; intros h; cbn; [lia |].
  specialize (IH (Z.max h x)). lia.
Qed.

Lemma fold_max_upper (l : list Z) (h x : Z) :
  x ∈ l -> x <= fold_left Z.max l h.
Proof.
  revert h. induction l as [| y l IH]; intros h Hin.
  - inversion Hin.
  - cbn. apply elem_of_cons in Hin as [-> | Hin].
    + pose proof (fold_max_ge l (Z.max h y)). lia.
    + apply IH, Hin.
Qed.

Lemma fold_max_attained (l : list Z) (h : Z) :
  fold_left Z.max l h = h \/ fold_left Z.max l h ∈ l.
Proof.
  revert h. induction l as [| y l IH]; intros h; cbn; [by left |].
  destruct (IH (Z.max h y)) as [Heq | Hin].
  - rewrite Heq. destruct (Z.max_spec h y) as [[_ ->] | [_ ->]].
    + right. left.
    + by left.
  - right. by right.
Qed.

Lemma fold_max_base (l : list Z) (a b : Z) :
  fold_left Z.max l (Z.max a b) = Z.max a (fold_left Z.max l b).
Proof.
  revert b. induction l as [| y l IH]; intros b; cbn; [reflexivity |].
  rewrite <- Z.max_assoc. apply IH.
Qed.

Lemma batch_max_is_max (batch : list Update) :
  batch <> [] ->
  (forall update, update ∈ batch -> seq_of update <= batch_max batch) /\
  exists update, update ∈ batch /\ batch_max batch = seq_of update.
Proof.
  unfold batch_max. destruct batch as [| u batch]; [done |]. intros _.
  cbn [map]. split.
  - intros update Hin. apply elem_of_cons in Hin as [-> | Hin].
    + apply fold_max_ge.
    + apply fold_max_upper. apply list_elem_of_fmap. by exists update.
  - destruct (fold_max_attained (map seq_of batch) (seq_of u)) as [-> | Hin].
    + exists u. split; [left | reflexivity].
    + apply list_elem_of_fmap in Hin as (update & Heq & Hin).
      exists update. split; [by right | exact Heq].
Qed.

Lemma highest_is_batch_max (batch : list Update) (active : gset string) :
  snd (process_updates batch active) =
  match batch with
  | [] => 0
  | _ :: _ => Z.max 0 (batch_max batch)
  end.
Proof.
  rewrite process_updates_eq. cbn [snd].
  destruct batch as [| u batch]; [reflexivity |].
  unfold batch_max. cbn [map fold_left]. apply fold_max_base.
Qed.

(** ** [aggregate_votes] *)

Lemma lookup_add_vote (total_votes : gmap string Z) (item : string * Vote)
    (k : string) :
  add_vote total_votes item !! k =
  if decide (v_username (snd item) = k)
  then Some (default 0 (total_votes !! k) + vote_value (snd item))
  else total_votes !! k.
Proof.
  unfold add_vote. rewrite lookup_insert.
  destruct (decide (v_username (snd item) = k)) as [<- | Hne].
  - destruct (total_votes !! v_username (snd item)) as [t |] eqn:Hlook.
    + rewrite Hlook. reflexivity.
    + rewrite lookup_insert_eq. reflexivity.
  - destruct (total_votes !! v_username (snd item)); [reflexivity |].
    by rewrite lookup_insert_ne.
Qed.

Lemma scores_le_refl t : scores_le t t.
Proof. intros k v Hk. exists v. split; [done | lia]. Qed.

Lemma scores_le_trans t1 t2 t3 :
  scores_le t1 t2 -> scores_le t2 t3 -> scores_le t1 t3.
Proof.
  intros H12 H23 k v Hk.
  destruct (H12 k v Hk) as (v2 & Hk2 & Hle2).
  destruct (H23 k v2 Hk2) as (v3 & Hk3 & Hle3).
  exists v3. split; [done | lia].
Qed.

Lemma add_vote_le t item :
  0 <= vote_value (snd item) -> scores_le t (add_vote t item).
Proof.
  intros Hpos k v Hk. rewrite lookup_add_vote.
  destruct (decide (v_username (snd item) = k)).
  - rewrite Hk. cbn. eexists. split; [reflexivity | lia].
  - exists v. split; [done | lia].
Qed.

Lemma add_vote_nonneg t item :
  0 <= vote_value (snd item) -> scores_nonneg t -> scores_nonneg (add_vote t item).
Proof.
  intros Hpos Hnn k v. rewrite lookup_add_vote.
  destruct (decide (v_username (snd item) = k)).
  - intros [= <-]. destruct (t !! k) as [x |] eqn:Hk; cbn.
    + specialize (Hnn k x Hk). lia.
    + lia.
  - apply Hnn.
Qed.

Lemma aggregate_votes_monotone poll_votes existing :
  Forall (fun item => 1 <= vote_value (snd item)) poll_votes ->
  scores_nonneg existing ->
  scores_le existing (aggregate_votes poll_votes existing) /\
  scores_nonneg (aggregate_votes poll_votes existing).
Proof.
  unfold aggregate_votes. revert existing.
  induction poll_votes as [| item poll_votes IH]; intros existing Hall Hnn.
  - split; [apply scores_le_refl | exact Hnn].
  - inversion Hall as [| ? ? Hitem Hrest]; subst. cbn [fold_left].
    assert (Hpos : 0 <= vote_value (snd item)) by lia.
    destruct (IH (add_vote existing item) Hrest (add_vote_nonneg _ _ Hpos Hnn))
      as [Hle Hnn'].
    split; [| exact Hnn'].
    eapply scores_le_trans; [apply add_vote_le, Hpos | exact Hle].
Qed.

Lemma record_vote_values active user_votes update :
  first_index_ok update ->
  Forall (fun item => 1 <= vote_value (snd item)) user_votes ->
  Forall (fun item => 1 <= vote_value (snd item))
         (record_vote active user_votes update).
Proof.
  intros Hok Hall. unfold record_vote, process_update.
  destruct (poll_answer update) as [pa |] eqn:Hpa; [| exact Hall].
  destruct (decide (pa_poll_id pa ∈ active)); [| exact Hall].
  destruct (pa_option_ids pa) as [| first rest] eqn:Hopt; [exact Hall |].
  specialize (Hok pa first rest Hpa Hopt).
  destruct (has_key _ _); [exact Hall |]. cbn [fst].
  apply Forall_app. split; [exact Hall |].
  apply Forall_cons. split; [| apply Forall_nil; exact I].
  cbn. lia.
Qed.

Lemma process_updates_values active updates :
  (forall update, update ∈ updates -> first_index_ok update) ->
  Forall (fun item => 1 <= vote_value (snd item))
         (fst (process_updates updates active)).
Proof.
  rewrite process_updates_eq. cbn [fst].
  assert (Hgen : forall user_votes,
             (forall update, update ∈ updates -> first_index_ok update) ->
             Forall (fun item => 1 <= vote_value (snd item)) user_votes ->
             Forall (fun item => 1 <= vote_value (snd item))
                    (fold_left (record_vote active) updates user_votes)).
  { induction updates as [| u updates IH]; intros user_votes Hok Hall; [exact Hall |].
    cbn [fold_left]. apply IH.
    - intros update Hin. apply Hok. by right.
    - apply record_vote_values; [apply Hok; left | exact Hall]. }
  intros Hok. apply Hgen; [exact Hok | apply Forall_nil; exact I].
Qed.

(** C10, as stated, fails: an answer whose first selected index is -1
    is recorded with the value 0. *)
Lemma negative_index_records_value_below_one :
  ~ (forall (updates : list Update) (active : gset string) key vote,
       (key, vote) ∈ fst (process_updates updates active) ->
       1 <= vote_value vote).
Proof.
  intros Hclaim.
  set (update :=
         {| update_id := Some 5;
            poll_answer :=
              Some {| pa_poll_id := "p1";
                      pa_user := {| u_id := 1; u_username := Some "dana";
                                    u_first_name := None |};
                      pa_option_ids := [-1] |} |}).
  set (vote := {| v_username := "dana"; v_poll_id := "p1"; vote_value := 0 |}).
  assert (Hrec : fst (process_updates [update] {["p1"]}) = [("dana_p1", vote)])
    by (vm_compute; reflexivity).
  specialize (Hclaim [update] {["p1"]} "dana_p1" vote).
  rewrite Hrec in Hclaim. specialize (Hclaim ltac:(left)).
  cbn in Hclaim. lia.
Qed.

(** C10, amended. Every vote recorded from a batch in which no first
    selected option index is negative has a value of at least 1.
    Aggregating the votes recorded from such a batch into a scores map
    without negative values keeps every key of that map, gives every
    respondent a total at least as large as before, and leaves no
    negative total. *)
Theorem aggregation_monotone (updates : list Update) (active : gset string)
    (existing : gmap string Z) :
  (forall update, update ∈ updates -> first_index_ok update) ->
  (forall k v, existing !! k = Some v -> 0 <= v) ->
  let poll_votes := fst (process_updates updates active) in
  let total := aggregate_votes poll_votes existing in
  (forall key vote, (key, vote) ∈ poll_votes -> 1 <= vote_value vote) /\
  (forall k v, existing !! k = Some v ->
               exists v', total !! k = Some v' /\ v <= v') /\
  (forall k, default 0 (existing !! k) <= default 0 (total !! k)) /\
  (forall k v', total !! k = Some v' -> 0 <= v').
Proof.
  intros Hok Hnn poll_votes total.
  pose proof (process_updates_values active updates Hok) as Hvals.
  fold poll_votes in Hvals.
  destruct (aggregate_votes_monotone poll_votes existing Hvals Hnn) as [Hle Hnn'].
  fold total in Hle, Hnn'.
  split; [| split; [exact Hle | split; [| exact Hnn']]].
  - intros key vote Hin. rewrite Forall_forall in Hvals.
    apply (Hvals (key, vote)), Hin.
  - intros k. destruct (existing !! k) as [v |] eqn:Hk; cbn.
    + destruct (Hle k v Hk) as (v' & -> & Hv). exact Hv.
    + destruct (total !! k) as [v' |] eqn:Hk'; cbn; [| lia].
      apply (Hnn' k v' Hk').
Qed.

Lemma aggregation_monotone_witness :
  let updates :=
    [{| update_id := Some 5;
        poll_answer :=
          Some {| pa_poll_id := "p1";
                  pa_user := {| u_id := 1; u_username := Some "dana";
                                u_first_name := None |};
                  pa_option_ids := [2] |} |}] in
  let active : gset string := {["p1"]} in
  let existing : gmap string Z := {["dana" := 4]} in
  default 0 (existing !! "dana")
  <= default 0
       (aggregate_votes (fst (process_updates updates active)) existing !! "dana").
Proof.
  intros updates active existing.
  refine (proj1 (proj2 (proj2 (aggregation_monotone updates active existing _ _)))
            "dana").
  - intros update Hin. apply list_elem_of_singleton in Hin. subst update.
    intros pa first rest [= <-] [= <- _]. lia.
  - intros key v Hlook. apply lookup_singleton_Some in Hlook as [_ <-]. lia.
Defined.

(** ** Deduplication inside a batch *)

Lemma record_vote_candidate active user_votes update :
  record_vote active user_votes update =
  match candidate active update with
  | Some (vote_key, vote) =>
      if has_key vote_key user_votes then user_votes
      else user_votes ++ [(vote_key, vote)]
  | None => user_votes
  end.
Proof.
  unfold record_vote, process_update, candidate.
  destruct (poll_answer update) as [pa |]; [| reflexivity].
  destruct (decide (pa_poll_id pa ∈ active)); [| reflexivity].
  destruct (pa_option_ids pa); [reflexivity |].
  destruct (has_key _ _); reflexivity.
Qed.

Lemma has_key_app vote_key l1 l2 :
  has_key vote_key (l1 ++ l2) = has_key vote_key l1 || has_key vote_key l2.
Proof. unfold has_key. by rewrite map_app, existsb_app. Qed.

Lemma has_key_here vote_key vote : has_key vote_key [(vote_key, vote)] = true.
Proof. unfold has_key. cbn. by rewrite String.eqb_refl. Qed.

Lemma has_key_record_vote active user_votes update vote_key :
  has_key vote_key user_votes = true ->
  has_key vote_key (record_vote active user_votes update) = true.
Proof.
  intros Hk. rewrite record_vote_candidate.
  destruct (candidate active update) as [[k v] |]; [| exact Hk].
  destruct (has_key k user_votes); [exact Hk |].
  rewrite has_key_app, Hk. reflexivity.
Qed.

Lemma has_key_fold active updates user_votes vote_key :
  has_key vote_key user_votes = true ->
  has_key vote_key (fold_left (record_vote active) updates user_votes) = true.
Proof.
  revert user_votes.
  induction updates as [| u updates IH]; intros user_votes Hk; [exact Hk |].
  cbn [fold_left]. apply IH, has_key_record_vote, Hk.
Qed.

(** Once an event has been processed, a later event with the same
    [vote_key] leaves [user_votes] as it is. *)
Lemma later_event_dropped active before first mid later after vote_key v1 v2 :
  candidate active first = Some (vote_key, v1) ->
  candidate active later = Some (vote_key, v2) ->
  fst (process_updates (before ++ first :: mid ++ later :: after) active)
  = fst (process_updates (before ++ first :: mid ++ after) active).
Proof.
  intros H1 H2. rewrite !process_updates_eq. cbn [fst].
  rewrite !fold_left_app. cbn [fold_left]. rewrite !fold_left_app. cbn [fold_left].
  f_equal.
  set (prev := fold_left (record_vote active) before []).
  set (seen := fold_left (record_vote active) mid _).
  assert (Hseen : has_key vote_key seen = true).
  { apply has_key_fold. rewrite record_vote_candidate, H1.
    destruct (has_key vote_key prev) eqn:Hk; [exact Hk |].
    rewrite has_key_app, has_key_here. apply orb_true_r. }
  by rewrite record_vote_candidate, H2, Hseen.
Qed.

(** The entry of an event is recorded when no earlier entry of the batch
    carries its [vote_key]. *)
Lemma first_event_recorded active before first after vote_key vote :
  candidate active first = Some (vote_key, vote) ->
  has_key vote_key (fst (process_updates before active)) = false ->
  (vote_key, vote) ∈ fst (process_updates (before ++ first :: after) active).
Proof.
  intros Hc Hfresh. rewrite process_updates_eq in Hfresh. cbn [fst] in Hfresh.
  rewrite process_updates_eq. cbn [fst]. rewrite fold_left_app. cbn [fold_left].
  rewrite (record_vote_candidate _ _ first), Hc, Hfresh.
  set (seen := fold_left (record_vote active) before []).
  assert (Hgen : forall l acc, (vote_key, vote) ∈ acc ->
                   (vote_key, vote) ∈ fold_left (record_vote active) l acc).
  { induction l as [| u l IH]; intros acc Hin; [exact Hin |].
    cbn [fold_left]. apply IH. rewrite record_vote_candidate.
    destruct (candidate active u) as [[k v] |]; [| exact Hin].
    destruct (has_key k acc); [exact Hin |]. apply elem_of_app. by left. }
  apply Hgen. apply elem_of_app. right. left.
Qed.

(** C6. The key [f"{username}_{poll_id}"] does not separate the pairs
    (respondent, poll): respondent [a] on poll [b_c] and respondent
    [a_b] on poll [c] share the key [a_b_c]. In the batch below the
    pair ([a_b], [c]) has two events; neither is recorded, and [a_b]
    receives no score, while the first of them carries the value 5. *)
Theorem vote_key_collision_drops_first_vote :
  let answer id username poll_id option :=
    {| update_id := Some id;
       poll_answer :=
         Some {| pa_poll_id := poll_id;
                 pa_user := {| u_id := id; u_username := Some username;
                               u_first_name := None |};
                 pa_option_ids := [option] |} |} in
  let active : gset string := {["c"; "b_c"]} in
  let batch := [answer 1 "a" "b_c" 0; answer 2 "a_b" "c" 4; answer 3 "a_b" "c" 2] in
  vote_key_of "a" "b_c" = vote_key_of "a_b" "c" /\
  process_updates batch active
    = ([("a_b_c", {| v_username := "a"; v_poll_id := "b_c"; vote_value := 1 |})], 3) /\
  aggregate_votes (fst (process_updates batch active)) ∅ !! "a_b" = None /\
  aggregate_votes (fst (process_updates batch active)) ∅ !! "a" = Some 1.
Proof. repeat split; vm_compute; reflexivity. Qed.

(** ** [clean_old_polls] *)

Section ExpiryFacts.

Variable strptime : string -> option Z.

Lemma fold_remove_poll_active (l : list string) (data : Data) (k : string) :
  active_polls (fold_left remove_poll l data) !! k =
  if decide (k ∈ l) then None else active_polls data !! k.
Proof.
  revert data. induction l as [| x l IH]; intros data.
  - cbn. case_decide as Hin; [inversion Hin | reflexivity].
  - cbn [fold_left]. rewrite IH. cbn.
    destruct (decide (k ∈ l)) as [Hin | Hout].
    + rewrite decide_True; [reflexivity | by right].
    + destruct (decide (k = x)) as [-> | Hne].
      * rewrite lookup_delete_eq. rewrite decide_True; [reflexivity | left].
      * rewrite lookup_delete_ne by done.
        rewrite decide_False; [reflexivity |].
        intros Hin. apply elem_of_cons in Hin as [? | ?]; contradiction.
Qed.

Lemma fold_remove_poll_processed (l : list string) (data : Data) (k : string) :
  k ∈ processed_polls (fold_left remove_poll l data) <->
  k ∈ processed_polls data /\ k ∉ l.
Proof.
  revert data. induction l as [| x l IH]; intros data.
  - cbn. split; [intros H; split; [exact H | intros Hin; inversion Hin] | tauto].
  - cbn [fold_left]. rewrite IH. cbn.
    rewrite elem_of_difference, elem_of_singleton, not_elem_of_cons. tauto.
Qed.

Lemma fold_remove_poll_frame (l : list string) (data : Data) :
  votes (fold_left remove_poll l data) = votes data /\
  current_week_start (fold_left remove_poll l data) = current_week_start data /\
  last_update_id (fold_left remove_poll l data) = last_update_id data.
Proof.
  revert data. induction l as [| x l IH]; intros data; [done |].
  cbn [fold_left]. destruct (IH (remove_poll data x)) as (-> & -> & ->). done.
Qed.

Lemma elem_of_polls_to_remove (current_date : Z) (data : Data) (k : string) :
  k ∈ polls_to_remove strptime current_date data <->
  exists info, active_polls data !! k = Some info /\
               to_remove strptime current_date info = true.
Proof.
  unfold polls_to_remove. rewrite list_elem_of_fmap. split.
  - intros ([k' info] & -> & Hin).
    apply list_elem_of_filter in Hin as [Hrem Hin].
    apply elem_of_map_to_list in Hin. exists info. by split.
  - intros (info & Hlook & Hrem). exists (k, info). split; [reflexivity |].
    apply list_elem_of_filter. split; [exact Hrem |].
    by apply elem_of_map_to_list.
Qed.

(** The registry after the expiry, entry by entry. *)
Lemma lookup_clean_old_polls (current_date : Z) (data : Data) (k : string) :
  active_polls (clean_old_polls strptime current_date data) !! k =
  match active_polls data !! k with
  | Some info => if to_remove strptime current_date info then None else Some info
  | None => None
  end.
Proof.
  unfold clean_old_polls. rewrite fold_remove_poll_active.
  destruct (decide (k ∈ polls_to_remove strptime current_date data)) as [Hin | Hout].
  - apply elem_of_polls_to_remove in Hin as (info & -> & ->). reflexivity.
  - destruct (active_polls data !! k) as [info |] eqn:Hlook; [| reflexivity].
    destruct (to_remove strptime current_date info) eqn:Hrem; [| reflexivity].
    exfalso. apply Hout, elem_of_polls_to_remove. by exists info.
Qed.

Lemma elem_of_processed_clean_old_polls (current_date : Z) (data : Data) (k : string) :
  k ∈ processed_polls (clean_old_polls strptime current_date data) <->
  k ∈ processed_polls data /\
  ~ (exists info, active_polls data !! k = Some info /\
                  to_remove strptime current_date info = true).
Proof.
  unfold clean_old_polls.
  by rewrite fold_remove_poll_processed, elem_of_polls_to_remove.
Qed.

Lemma cursor_clean_old_polls (current_date : Z) (data : Data) :
  cursor (clean_old_polls strptime current_date data) = cursor data.
Proof.
  unfold cursor, clean_old_polls.
  by destruct (fold_remove_poll_frame
                 (polls_to_remove strptime current_date data) data) as (_ & _ & ->).
Qed.

Lemma to_remove_parsed current_date info s poll_date :
  date info = Some s -> s <> "" -> strptime s = Some poll_date ->
  to_remove strptime current_date info = (7 <? current_date - poll_date)%Z.
Proof.
  intros Hd Hs Hp. unfold to_remove. rewrite Hd.
  destruct s as [| c s]; [done |]. by rewrite Hp.
Qed.

Lemma to_remove_unparsed current_date info s :
  date info = Some s -> s <> "" -> strptime s = None ->
  to_remove strptime current_date info = true.
Proof.
  intros Hd Hs Hp. unfold to_remove. rewrite Hd.
  destruct s as [| c s]; [done |]. by rewrite Hp.
Qed.

Lemma to_remove_no_date current_date info :
  date info = None \/ date info = Some "" ->
  to_remove strptime current_date info = false.
Proof. unfold to_remove. by intros [-> | ->]. Qed.

(** C5, amended. After [clean_old_polls] at date [current_date]: an
    entry whose non-empty date parses to a day more than 7 days before
    [current_date] is gone, one whose date parses to a day at most 7
    days before (7 included) is kept as it was; an entry whose
    non-empty date does not parse is gone; an entry whose date is
    missing or empty is kept as it was. Every entry still present is an
    entry of the registry before, unchanged, and if its non-empty date
    parses, the day is at most 7 days before. [processed_polls] loses
    exactly the ids removed from the registry, and nothing else of the
    state changes. *)
Theorem clean_old_polls_spec (current_date : Z) (data : Data) :
  let data' := clean_old_polls strptime current_date data in
  (forall k info s poll_date,
     active_polls data !! k = Some info ->
     date info = Some s -> s <> "" -> strptime s = Some poll_date ->
     (7 < current_date - poll_date -> active_polls data' !! k = None) /\
     (current_date - poll_date <= 7 -> active_polls data' !! k = Some info)) /\
  (forall k info s,
     active_polls data !! k = Some info ->
     date info = Some s -> s <> "" -> strptime s = None ->
     active_polls data' !! k = None) /\
  (forall k info,
     active_polls data !! k = Some info ->
     date info = None \/ date info = Some "" ->
     active_polls data' !! k = Some info) /\
  (forall k info,
     active_polls data' !! k = Some info -> active_polls data !! k = Some info) /\
  (forall k info s poll_date,
     active_polls data' !! k = Some info ->
     date info = Some s -> s <> "" -> strptime s = Some poll_date ->
     current_date - poll_date <= 7) /\
  (forall k,
     k ∈ processed_polls data' <->
     k ∈ processed_polls data /\
     ~ (is_Some (active_polls data !! k) /\ active_polls data' !! k = None)) /\
  votes data' = votes data /\
  current_week_start data' = current_week_start data /\
  last_update_id data' = last_update_id data.
Proof.
  intros data'. subst data'.
  split; [| split; [| split; [| split; [| split; [| split]]]]].
  - intros k info s poll_date Hlook Hd Hs Hp.
    rewrite lookup_clean_old_polls, Hlook.
    rewrite (to_remove_parsed current_date info s poll_date Hd Hs Hp).
    split; intros Hage.
    + by rewrite (proj2 (Z.ltb_lt _ _) Hage).
    + by rewrite (proj2 (Z.ltb_ge _ _) Hage).
  - intros k info s Hlook Hd Hs Hp.
    rewrite lookup_clean_old_polls, Hlook.
    by rewrite (to_remove_unparsed current_date info s Hd Hs Hp).
  - intros k info Hlook Hd.
    rewrite lookup_clean_old_polls, Hlook.
    by rewrite (to_remove_no_date current_date info Hd).
  - intros k info. rewrite lookup_clean_old_polls.
    destruct (active_polls data !! k) as [info0 |]; [| done].
    destruct (to_remove strptime current_date info0); [done |]. done.
  - intros k info s poll_date. rewrite lookup_clean_old_polls.
    destruct (active_polls data !! k) as [info0 |]; [| done].
    destruct (to_remove strptime current_date info0) eqn:Hrem; [done |].
    intros [= <-] Hd Hs Hp.
    rewrite (to_remove_parsed current_date info0 s poll_date Hd Hs Hp) in Hrem.
    by apply Z.ltb_ge in Hrem.
  - intros k. rewrite elem_of_processed_clean_old_polls.
    rewrite lookup_clean_old_polls.
    destruct (active_polls data !! k) as [info |] eqn:Hlook.
    + destruct (to_remove strptime current_date info) eqn:Hrem.
      * split; intros [Hin Hno]; (split; [exact Hin |]); intros Habs; apply Hno.
        -- by exists info.
        -- split; [by exists info | reflexivity].
      * split; intros [Hin _]; (split; [exact Hin |]).
        -- intros [_ Habs]. discriminate Habs.
        -- intros (info' & [= <-] & Habs). congruence.
    + split; intros [Hin _]; (split; [exact Hin |]).
      * intros [[x Hx] _]. discriminate Hx.
      * intros (info' & Habs & _). discriminate Habs.
  - apply fold_remove_poll_frame.
Qed.

End ExpiryFacts.

(** C5, as stated, fails: the empty string is not a date
    [strptime] accepts, and the entry that carries it stays in the
    registry. *)
Lemma empty_date_survives_expiry :
  ~ (forall k info s,
       active_polls registry_2024_03_15 !! k = Some info ->
       date info = Some s ->
       Calendar.strptime s = None ->
       active_polls (clean_old_polls Calendar.strptime 738960 registry_2024_03_15) !! k
       = None).
Proof.
  intros Hclaim.
  assert (Hlook : active_polls registry_2024_03_15 !! "blank"
                  = Some {| message_id := 4; date := Some "" |})
    by (vm_compute; reflexivity).
  specialize (Hclaim "blank" _ "" Hlook eq_refl eq_refl).
  vm_compute in Hclaim. discriminate Hclaim.
Qed.

Lemma clean_old_polls_spec_witness :
  let data' := clean_old_polls Calendar.strptime 738960 registry_2024_03_15 in
  active_polls data' !! "p7" = Some {| message_id := 1; date := Some "2024-03-08" |} /\
  active_polls data' !! "p8" = None /\
  active_polls data' !! "bad" = None /\
  active_polls data' !! "blank" = Some {| message_id := 4; date := Some "" |} /\
  ("p7" ∈ processed_polls data' <->
   "p7" ∈ processed_polls registry_2024_03_15 /\
   ~ (is_Some (active_polls registry_2024_03_15 !! "p7") /\
      active_polls data' !! "p7" = None)).
Proof.
  intros data'.
  destruct (clean_old_polls_spec Calendar.strptime 738960 registry_2024_03_15)
    as (Hparsed & Hbad & Hblank & _ & _ & Hprocessed & _).
  split; [| split; [| split; [| split]]].
  - refine (proj2 (Hparsed "p7" _ "2024-03-08" 738953 _ _ _ _) _);
      [vm_compute; reflexivity | reflexivity | discriminate | reflexivity | lia].
  - refine (proj1 (Hparsed "p8" {| message_id := 2; date := Some "2024-03-07" |}
                     "2024-03-07" 738952 _ _ _ _) _);
      [vm_compute; reflexivity | reflexivity | discriminate | reflexivity | lia].
  - refine (Hbad "bad" {| message_id := 3; date := Some "08/03/2024" |}
              "08/03/2024" _ _ _ _);
      [vm_compute; reflexivity | reflexivity | discriminate | reflexivity].
  - refine (Hblank "blank" _ _ _); [vm_compute; reflexivity | right; reflexivity].
  - apply Hprocessed.
Defined.

(** ** The cursor *)

Lemma cursor_consume_updates (updates : list Update) (data : Data) :
  cursor (consume_updates updates data) =
  match updates with
  | [] => cursor data
  | _ :: _ =>
      Z.max (cursor data)
            (snd (process_updates updates (dom (active_polls data))))
  end.
Proof.
  unfold consume_updates. destruct updates as [| u updates]; [reflexivity |].
  destruct (process_updates (u :: updates) (dom (active_polls data)))
    as [poll_votes highest].
  cbn [snd].
  destruct (cursor data <? highest)%Z eqn:Hlt.
  - apply Z.ltb_lt in Hlt.
    destruct poll_votes; unfold cursor in *; cbn; lia.
  - apply Z.ltb_ge in Hlt.
    destruct poll_votes; unfold cursor in *; cbn; lia.
Qed.

Lemma votes_consume_updates (updates : list Update) (data : Data) :
  votes (consume_updates updates data)
  = aggregate_votes (fst (process_updates updates (dom (active_polls data))))
      (votes data).
Proof.
  unfold consume_updates. destruct updates as [| u updates]; [reflexivity |].
  destruct (process_updates (u :: updates) (dom (active_polls data)))
    as [poll_votes highest].
  cbn [fst]. destruct (cursor data <? highest)%Z; by destruct poll_votes.
Qed.




(** ** Events the scan passes over *)

(** C7, as stated, fails: for a batch whose only sequence number is -5
    the value returned is 0, which is not a sequence number of the
    batch. *)
Lemma highest_is_not_batch_maximum :
  ~ (forall (active : gset string) (batch : list Update),
       batch <> [] -> snd (process_updates batch active) = batch_max batch).
Proof.
  intros Hclaim.
  specialize (Hclaim ∅ [{| update_id := Some (-5); poll_answer := None |}]
                ltac:(discriminate)).
  vm_compute in Hclaim. discriminate Hclaim.
Qed.

(** C7, amended. An event without a poll answer, for a poll outside the
    active set, or without a selected option adds nothing to
    [user_votes] and changes no score, while its sequence number bounds
    the returned value from below; the block that processes the batch
    leaves the scores as they would be without the event and moves the
    cursor to that sequence number at least. The returned value is the
    maximum of 0 and the highest sequence number of the whole batch (0
    for the empty batch); it bounds every sequence number of the
    batch. *)
Theorem ignored_events_only_advance (active : gset string) (batch : list Update) :
  let highest := snd (process_updates batch active) in
  (forall before update after,
     batch = before ++ update :: after ->
     ignored active update ->
     fst (process_updates batch active)
       = fst (process_updates (before ++ after) active) /\
     (forall existing,
        aggregate_votes (fst (process_updates batch active)) existing
        = aggregate_votes (fst (process_updates (before ++ after) active)) existing) /\
     seq_of update <= highest /\
     (forall data,
        dom (active_polls data) = active ->
        votes (consume_updates batch data)
          = votes (consume_updates (before ++ after) data) /\
        seq_of update <= cursor (consume_updates batch data))) /\
  highest = match batch with
            | [] => 0
            | _ :: _ => Z.max 0 (batch_max batch)
            end /\
  (forall update, update ∈ batch -> seq_of update <= highest) /\
  (batch <> [] ->
   (forall update, update ∈ batch -> seq_of update <= batch_max batch) /\
   exists update, update ∈ batch /\ batch_max batch = seq_of update).
Proof.
  intros highest. subst highest.
  assert (Hub : forall update, update ∈ batch ->
                 seq_of update <= snd (process_updates batch active)).
  { intros update Hin. rewrite process_updates_eq. cbn [snd].
    apply fold_max_upper. apply list_elem_of_fmap. by exists update. }
  split; [| split; [apply highest_is_batch_max | split; [exact Hub |]]].
  - intros before update after Hbatch Hign.
    assert (Hin : update ∈ batch)
      by (rewrite Hbatch; apply elem_of_app; right; left).
    assert (Heq : fst (process_updates batch active)
                  = fst (process_updates (before ++ after) active)).
    { rewrite Hbatch, !process_updates_eq. cbn [fst].
      rewrite !fold_left_app. cbn [fold_left]. by rewrite record_vote_ignored. }
    split; [exact Heq |]. split; [intros existing; by rewrite Heq |].
    split; [by apply Hub |].
    intros data Hdom. split.
    + by rewrite !votes_consume_updates, Hdom, Heq.
    + rewrite cursor_consume_updates, Hdom.
      specialize (Hub update Hin).
      destruct batch as [| u l]; [inversion Hin | lia].
  - apply batch_max_is_max.
Qed.

Lemma ignored_events_only_advance_witness :
  let active : gset string := {["p1"]} in
  let vote :=
    {| update_id := Some 5;
       poll_answer :=
         Some {| pa_poll_id := "p1";
                 pa_user := {| u_id := 1; u_username := Some "dana";
                               u_first_name := None |};
                 pa_option_ids := [2] |} |} in
  let foreign :=
    {| update_id := Some 9;
       poll_answer :=
         Some {| pa_poll_id := "zz";
                 pa_user := {| u_id := 2; u_username := Some "noa";
                               u_first_name := None |};
                 pa_option_ids := [0] |} |} in
  let data :=
    {| current_week_start := None;
       active_polls := {[ "p1" := {| message_id := 1; date := Some "2024-03-14" |} ]};
       votes := ∅;
       processed_polls := ∅;
       last_update_id := Some 3 |} in
  ignored active foreign /\
  fst (process_updates [vote; foreign] active)
    = fst (process_updates ([vote] ++ []) active) /\
  seq_of foreign <= snd (process_updates [vote; foreign] active) /\
  votes (consume_updates [vote; foreign] data)
    = votes (consume_updates ([vote] ++ []) data) /\
  seq_of foreign <= cursor (consume_updates [vote; foreign] data).
Proof.
  intros active vote foreign data.
  assert (Hign : ignored active foreign).
  { right. eexists. split; [reflexivity |]. left. cbn.
    intros Hin. apply elem_of_singleton in Hin. discriminate Hin. }
  destruct (ignored_events_only_advance active [vote; foreign]) as (H1 & _).
  destruct (H1 [vote] foreign [] eq_refl Hign) as (Ha & _ & Hc & Hd).
  assert (Hdom : dom (active_polls data) = active) by apply dom_singleton_L.
  destruct (Hd data Hdom) as [Hv Hcur].
  split; [exact Hign |]. split; [exact Ha |]. split; [exact Hc |].
  split; [exact Hv | exact Hcur].
Defined.

(** ** The order of the steps of a run *)

(** A run in which the local [updates] is bound reaches [save_data]. *)
Lemma run_daily_task_from_bound (strptime : string -> option Z)
    (and_operand : bool) (updates : list Update) (env : Env)
    (file : option Data) :
  let data := consume_updates updates (load_data file) in
  let week := week_cycle and_operand (now env) (get_week_start (now env)) data in
  run_daily_task_from strptime and_operand (Some updates) env file =
  Saved
    (clean_old_polls strptime (clean_now env)
       (register_poll (posted env) (Calendar.strftime (now env)) (fst week)))
    (snd week ++ [getUpdates (cursor (fst week) + 1)] ++ [sendPoll]).
Proof.
  cbn. unfold run_daily_task_from.
  destruct (week_cycle _ _ _ _) as [data' calls]. cbn [fst snd].
  by rewrite <- app_assoc.
Qed.

(** C3. [run_daily_task] reads [updates] in the aggregation block
    before the request that fetches them: the run raises
    [UnboundLocalError] there, before the week cycle, with no request
    sent and nothing saved. Were the local bound when the block is
    reached, [getUpdates] would still be sent after the requests of the
    week cycle, and the batch it returns would reach neither the scores
    nor anything else of the saved state. This holds whatever the
    missing operand of line 261 is. *)
Theorem run_reads_updates_before_fetch (strptime : string -> option Z)
    (and_operand : bool) (env : Env) (file : option Data) :
  run_daily_task strptime and_operand env file
    = Raised (UnboundLocalError "updates") [] /\
  file_after file (run_daily_task strptime and_operand env file) = file /\
  (forall updates batch,
     run_daily_task_from strptime and_operand (Some updates)
       (with_fetched batch env) file
     = run_daily_task_from strptime and_operand (Some updates) env file) /\
  (forall updates,
     exists data week_calls offset,
       week_calls
         = snd (week_cycle and_operand (now env) (get_week_start (now env))
                  (consume_updates updates (load_data file))) /\
       run_daily_task_from strptime and_operand (Some updates) env file
       = Saved data (week_calls ++ [getUpdates offset] ++ [sendPoll])).
Proof.
  split; [reflexivity |]. split; [reflexivity |]. split.
  - intros updates batch. reflexivity.
  - intros updates. rewrite run_daily_task_from_bound. by eexists _, _, _.
Qed.

(** ** A Sunday run *)

(** C2. A Sunday run resets nothing. On Sunday 2024-03-17, with the
    cursor at 42, the score of alice, an active poll and a processed
    poll in the data file, [run_daily_task] raises at line 240, before
    the block that would reset the state, and the file is left as it
    was: the scores, the active polls, the processed polls and the week
    start are those of before. The week start the block would store is,
    besides, the day 7 days before the run, 2024-03-10. *)
Theorem sunday_run_resets_nothing (strptime : string -> option Z)
    (and_operand : bool) (batch : list Update) (poll : option (string * Z))
    (later : Z) :
  let env := {| now := 738962; fetched := batch; posted := poll;
                clean_now := later |} in
  let after :=
    load_data (file_after (Some state_42)
                 (run_daily_task strptime and_operand env (Some state_42))) in
  Calendar.weekday (now env) = 6 /\
  votes after = {[ "alice" := 5 ]} /\
  active_polls after = active_polls state_42 /\
  processed_polls after = {[ "p1" ]} /\
  current_week_start after = Some "2024-03-03" /\
  get_week_start_monday (now env) = now env - 7 /\
  get_week_start (now env) = "2024-03-10".
Proof. cbn. repeat split. Qed.

(** C8. A Sunday run with scores sends no summary. On Sunday
    2024-03-17, with the score of alice in the data file,
    [run_daily_task] raises at line 240 and has sent no request at all:
    no [sendMessage] is among its requests. *)
Theorem sunday_run_sends_no_summary (strptime : string -> option Z)
    (and_operand : bool) (batch : list Update) (poll : option (string * Z))
    (later : Z) :
  let env := {| now := 738962; fetched := batch; posted := poll;
                clean_now := later |} in
  Calendar.weekday (now env) = 6 /\
  votes (load_data (Some state_42)) !! "alice" = Some 5 /\
  calls_of (run_daily_task strptime and_operand env (Some state_42)) = [] /\
  (forall scores,
     sendMessage scores
     ∉ calls_of (run_daily_task strptime and_operand env (Some state_42))).
Proof.
  cbn. split; [reflexivity |]. split; [apply lookup_singleton_eq |].
  split; [reflexivity |]. intros scores Hin. inversion Hin.
Qed.

(** * Further properties of the code *)

(** ** The entries of [user_votes] *)

Lemma has_key_spec (vote_key : string) (user_votes : list (string * Vote)) :
  has_key vote_key user_votes = true <-> vote_key ∈ map fst user_votes.
Proof.
  unfold has_key. rewrite existsb_exists. split.
  - intros (k & Hin & Heq). apply String.eqb_eq in Heq. subst k.
    by apply list_elem_of_In.
  - intros Hin. exists vote_key. split; [by apply list_elem_of_In |].
    apply String.eqb_refl.
Qed.

Lemma candidate_inv active update vote_key vote :
  candidate active update = Some (vote_key, vote) ->
  exists pa first rest,
    poll_answer update = Some pa /\
    pa_poll_id pa ∈ active /\
    pa_option_ids pa = first :: rest /\
    vote_key = vote_key_of (username_of (pa_user pa)) (pa_poll_id pa) /\
    vote = {| v_username := username_of (pa_user pa);
              v_poll_id := pa_poll_id pa;
              vote_value := first + 1 |}.
Proof.
  unfold candidate. intros Hc.
  destruct (poll_answer update) as [pa |]; [| discriminate Hc].
  destruct (decide (pa_poll_id pa ∈ active)) as [Hin |]; [| discriminate Hc].
  destruct (pa_option_ids pa) as [| first rest] eqn:Hopt; [discriminate Hc |].
  injection Hc as <- <-. by exists pa, first, rest.
Qed.

Lemma keys_unique (l : list (string * Vote)) k v1 v2 :
  NoDup (map fst l) -> (k, v1) ∈ l -> (k, v2) ∈ l -> v1 = v2.
Proof.
  induction l as [| [k' v'] l IH]; intros Hnd H1 H2; [inversion H1 |].
  cbn in Hnd. apply NoDup_cons in Hnd as [Hfresh Hnd].
  assert (Hkey : forall v, (k, v) ∈ l -> k ∈ map fst l).
  { intros v Hin. apply list_elem_of_fmap. by exists (k, v). }
  apply elem_of_cons in H1 as [Heq1 | H1];
    apply elem_of_cons in H2 as [Heq2 | H2]; simplify_eq.
  - reflexivity.
  - exfalso. apply Hfresh. by apply (Hkey v2).
  - exfalso. apply Hfresh. by apply (Hkey v1).
  - by apply IH.
Qed.

Section UserVotes.

Variable active : gset string.
Variable batch : list Update.

Lemma from_batch_record_vote user_votes update :
  update ∈ batch -> from_batch active batch user_votes ->
  from_batch active batch (record_vote active user_votes update).
Proof.
  intros Hin [Hnd Hprov]. rewrite record_vote_candidate.
  destruct (candidate active update) as [[k v] |] eqn:Hc; [| by split].
  destruct (has_key k user_votes) eqn:Hk; [by split |].
  split.
  - rewrite map_app. cbn. apply NoDup_app. split; [exact Hnd |].
    split; [| apply NoDup_singleton].
    intros x Hx Hx'. apply list_elem_of_singleton in Hx'. subst x.
    apply has_key_spec in Hx. congruence.
  - intros k' v' Hin'. apply elem_of_app in Hin' as [Hin' | Hin'].
    + by apply Hprov.
    + apply list_elem_of_singleton in Hin'. injection Hin' as -> ->.
      by exists update.
Qed.

Lemma from_batch_fold (l : list Update) user_votes :
  (forall update, update ∈ l -> update ∈ batch) ->
  from_batch active batch user_votes ->
  from_batch active batch (fold_left (record_vote active) l user_votes).
Proof.
  revert user_votes.
  induction l as [| u l IH]; intros user_votes Hsub Hinv; [exact Hinv |].
  cbn [fold_left]. apply IH.
  - intros update Hin. apply Hsub. by right.
  - apply from_batch_record_vote; [apply Hsub; left | exact Hinv].
Qed.

Lemma length_fold_record_vote (l : list Update) user_votes :
  (length (fold_left (record_vote active) l user_votes)
   <= length user_votes + length l)%nat.
Proof.
  revert user_votes. induction l as [| u l IH]; intros user_votes; cbn; [lia |].
  specialize (IH (record_vote active user_votes u)).
  assert (length (record_vote active user_votes u) <= S (length user_votes))%nat.
  { rewrite record_vote_candidate.
    destruct (candidate active u) as [[k v] |]; [| lia].
    destruct (has_key k user_votes); [lia |]. rewrite length_app. cbn. lia. }
  lia.
Qed.

End UserVotes.

Lemma process_updates_from_batch (updates : list Update) (active : gset string) :
  from_batch active updates (fst (process_updates updates active)).
Proof.
  rewrite process_updates_eq. cbn [fst].
  apply from_batch_fold; [done |]. split; [apply NoDup_nil_2 |].
  intros k v Hin. inversion Hin.
Qed.

(** X1. In the dictionary [process_updates] returns no key occurs
    twice, and it has at most one entry per event. Every entry comes
    from an event of the batch that answers an active poll with at
    least one option: its key is [username_poll_id], its poll is active
    and its value is the first selected index plus one. *)
Theorem user_votes_entries (updates : list Update) (active : gset string) :
  let user_votes := fst (process_updates updates active) in
  NoDup (map fst user_votes) /\
  (length user_votes <= length updates)%nat /\
  (forall k v, (k, v) ∈ user_votes ->
     k = vote_key_of (v_username v) (v_poll_id v) /\
     v_poll_id v ∈ active /\
     exists update pa first rest,
       update ∈ updates /\ poll_answer update = Some pa /\
       pa_option_ids pa = first :: rest /\
       v_username v = username_of (pa_user pa) /\
       v_poll_id v = pa_poll_id pa /\
       vote_value v = first + 1).
Proof.
  cbn. destruct (process_updates_from_batch updates active) as [Hnd Hprov].
  split; [exact Hnd |]. split.
  - rewrite process_updates_eq. cbn [fst].
    pose proof (length_fold_record_vote active updates []) as Hlen. cbn in Hlen. lia.
  - intros k v Hin. destruct (Hprov k v Hin) as (update & Hu & Hc).
    apply candidate_inv in Hc as (pa & first & rest & Hpa & Hact & Hopt & -> & ->).
    cbn. split; [reflexivity |]. split; [exact Hact |].
    by exists update, pa, first, rest.
Qed.

(** ** Events delivered again *)

Lemma fold_max_absorb (l : list Z) (h : Z) :
  (forall x, x ∈ l -> x <= h) -> fold_left Z.max l h = h.
Proof.
  revert h. induction l as [| x l IH]; intros h Hle; [reflexivity |].
  cbn. rewrite Z.max_l by (apply Hle; left).
  apply IH. intros y Hy. apply Hle. by right.
Qed.

Lemma fold_max_app (l1 l2 : list Z) (h : Z) :
  fold_left Z.max (l1 ++ l2) h = fold_left Z.max l2 (fold_left Z.max l1 h).
Proof. apply fold_left_app. Qed.

(** After the loop has gone over [l], the key of each event of [l] is in
    [user_votes]. *)
Lemma keys_after_fold active (l : list Update) user_votes update k v :
  update ∈ l -> candidate active update = Some (k, v) ->
  has_key k (fold_left (record_vote active) l user_votes) = true.
Proof.
  revert user_votes. induction l as [| u l IH]; intros user_votes Hin Hc.
  - inversion Hin.
  - cbn [fold_left]. apply elem_of_cons in Hin as [-> | Hin].
    + apply has_key_fold. rewrite record_vote_candidate, Hc.
      destruct (has_key k user_votes) eqn:Hk; [exact Hk |].
      rewrite has_key_app, has_key_here. apply orb_true_r.
    + by apply IH.
Qed.

Lemma fold_record_vote_known active (l : list Update) user_votes :
  (forall update k v, update ∈ l -> candidate active update = Some (k, v) ->
                      has_key k user_votes = true) ->
  fold_left (record_vote active) l user_votes = user_votes.
Proof.
  induction l as [| u l IH]; intros Hknown; [reflexivity |].
  cbn [fold_left].
  assert (Hu : record_vote active user_votes u = user_votes).
  { rewrite record_vote_candidate.
    destruct (candidate active u) as [[k v] |] eqn:Hc; [| reflexivity].
    by rewrite (Hknown u k v ltac:(left) Hc). }
  rewrite Hu. apply IH. intros update k v Hin. apply Hknown. by right.
Qed.

(** X2. Events that are in the batch a second time change nothing: a
    batch followed by events it already contains gives the same
    [user_votes] and the same highest sequence number as the batch. *)
Theorem redelivered_events_change_nothing (active : gset string)
    (updates again : list Update) :
  (forall update, update ∈ again -> update ∈ updates) ->
  process_updates (updates ++ again) active = process_updates updates active.
Proof.
  intros Hsub. rewrite !process_updates_eq. f_equal.
  - rewrite fold_left_app. apply fold_record_vote_known.
    intros update k v Hin Hc.
    apply (keys_after_fold active updates [] update k v); [by apply Hsub | exact Hc].
  - rewrite map_app, fold_max_app. apply fold_max_absorb.
    intros x Hx. apply list_elem_of_fmap in Hx as (update & -> & Hin).
    apply fold_max_upper. apply list_elem_of_fmap. exists update.
    split; [reflexivity | by apply Hsub].
Qed.

Lemma redelivered_events_change_nothing_witness :
  let vote :=
    {| update_id := Some 5;
       poll_answer :=
         Some {| pa_poll_id := "p1";
                 pa_user := {| u_id := 1; u_username := Some "dana";
                               u_first_name := None |};
                 pa_option_ids := [2] |} |} in
  process_updates ([vote] ++ [vote]) {["p1"]} = process_updates [vote] {["p1"]}.
Proof.
  intros vote.
  apply (redelivered_events_change_nothing {["p1"]} [vote] [vote]).
  intros update Hin. exact Hin.
Defined.

(** ** Keys of distinct pairs *)

Lemma append_cons (c : ascii) (a b : string) :
  (String c a ++ b)%string = String c (a ++ b)%string.
Proof. reflexivity. Qed.

Lemma append_nil (b : string) : (EmptyString ++ b)%string = b.
Proof. reflexivity. Qed.

Lemma no_underscore_app (a b : string) :
  no_underscore (a ++ String "_" b)%string = false.
Proof.
  induction a as [| c a IH]; [reflexivity |].
  rewrite append_cons. cbn [no_underscore]. rewrite IH. apply andb_false_r.
Qed.

Lemma vote_key_of_inj (u1 p1 u2 p2 : string) :
  no_underscore p1 = true -> no_underscore p2 = true ->
  vote_key_of u1 p1 = vote_key_of u2 p2 -> u1 = u2 /\ p1 = p2.
Proof.
  unfold vote_key_of. intros H1 H2.
  change ("_" ++ p1)%string with (String "_" p1).
  change ("_" ++ p2)%string with (String "_" p2).
  revert u2. induction u1 as [| c u1 IH]; intros u2 Heq.
  - destruct u2 as [| c2 u2].
    + rewrite !append_nil in Heq. injection Heq as ->. by split.
    + rewrite append_nil, append_cons in Heq. injection Heq as <- ->.
      rewrite no_underscore_app in H1. discriminate H1.
  - destruct u2 as [| c2 u2].
    + rewrite append_nil, append_cons in Heq. injection Heq as -> <-.
      rewrite no_underscore_app in H2. discriminate H2.
    + rewrite !append_cons in Heq. injection Heq as -> Heq.
      destruct (IH u2 Heq) as [-> ->]. by split.
Qed.

Lemma has_key_provenance active (l : list Update) user_votes k :
  has_key k (fold_left (record_vote active) l user_votes) = true ->
  has_key k user_votes = true \/
  exists update v, update ∈ l /\ candidate active update = Some (k, v).
Proof.
  revert user_votes. induction l as [| u l IH]; intros user_votes Hk; [by left |].
  cbn [fold_left] in Hk. destruct (IH _ Hk) as [Hk' | (update & v & Hin & Hc)].
  - rewrite record_vote_candidate in Hk'.
    destruct (candidate active u) as [[k' v'] |] eqn:Hc; [| by left].
    destruct (has_key k' user_votes); [by left |].
    rewrite has_key_app in Hk'. apply orb_true_iff in Hk' as [Hk' | Hk']; [by left |].
    right. exists u, v'. split; [left |].
    unfold has_key in Hk'. cbn in Hk'. rewrite orb_false_r in Hk'.
    apply String.eqb_eq in Hk'. by subst k'.
  - right. exists update, v. split; [by right | exact Hc].
Qed.

(** X3. When no active poll id contains the character [_], the first
    event of a batch in which a respondent answers a poll is the one
    recorded: [user_votes] has an entry for that respondent and poll,
    with the value of that event, and no other entry for them. *)
Theorem first_answer_recorded (active : gset string)
    (before after : list Update) (update : Update) (pa : PollAnswer)
    (first : Z) (rest : list Z) :
  (forall poll_id, poll_id ∈ active -> no_underscore poll_id = true) ->
  poll_answer update = Some pa ->
  pa_poll_id pa ∈ active ->
  pa_option_ids pa = first :: rest ->
  (forall earlier pa', earlier ∈ before -> poll_answer earlier = Some pa' ->
     ~ (username_of (pa_user pa') = username_of (pa_user pa) /\
        pa_poll_id pa' = pa_poll_id pa)) ->
  let user_votes := fst (process_updates (before ++ update :: after) active) in
  let vote := {| v_username := username_of (pa_user pa);
                 v_poll_id := pa_poll_id pa;
                 vote_value := first + 1 |} in
  (vote_key_of (username_of (pa_user pa)) (pa_poll_id pa), vote) ∈ user_votes /\
  (forall k v, (k, v) ∈ user_votes ->
     v_username v = username_of (pa_user pa) ->
     v_poll_id v = pa_poll_id pa ->
     v = vote).
Proof.
  intros Hids Hpa Hact Hopt Hfirst user_votes vote.
  set (key := vote_key_of (username_of (pa_user pa)) (pa_poll_id pa)).
  assert (Hc : candidate active update = Some (key, vote)).
  { unfold candidate. rewrite Hpa, decide_True by exact Hact. by rewrite Hopt. }
  assert (Hfresh : has_key key (fst (process_updates before active)) = false).
  { destruct (has_key key (fst (process_updates before active))) eqn:Hk; [| reflexivity].
    exfalso. rewrite process_updates_eq in Hk. cbn [fst] in Hk.
    apply has_key_provenance in Hk as [Hk | (earlier & v & Hin & Hc')];
      [discriminate Hk |].
    apply candidate_inv in Hc' as (pa' & f' & r' & Hpa' & Hact' & _ & Hkey & _).
    apply vote_key_of_inj in Hkey as [Hu Hp]; [| by apply Hids | by apply Hids].
    apply (Hfirst earlier pa' Hin Hpa'). by split. }
  assert (Hin : (key, vote) ∈ user_votes)
    by (apply first_event_recorded; assumption).
  split; [exact Hin |].
  intros k v Hin' Hu Hp.
  destruct (process_updates_from_batch (before ++ update :: after) active)
    as [Hnd Hprov].
  destruct (Hprov k v Hin') as (u' & _ & Hc').
  apply candidate_inv in Hc' as (pa' & f' & r' & _ & _ & _ & Hk & Hv).
  assert (Hk' : k = key).
  { rewrite Hk. unfold key. rewrite <- Hu, <- Hp. by rewrite Hv. }
  rewrite Hk' in Hin'. symmetry. exact (keys_unique _ key vote v Hnd Hin Hin').
Qed.

Lemma first_answer_recorded_witness :
  let answer id username option :=
    {| update_id := Some id;
       poll_answer :=
         Some {| pa_poll_id := "p1";
                 pa_user := {| u_id := id; u_username := Some username;
                               u_first_name := None |};
                 pa_option_ids := [option] |} |} in
  (vote_key_of "dana" "p1",
   {| v_username := "dana"; v_poll_id := "p1"; vote_value := 2 + 1 |})
  ∈ fst (process_updates ([answer 1 "noa" 0] ++ answer 2 "dana" 2 :: [answer 3 "dana" 4])
           {["p1"]}).
Proof.
  intros answer.
  refine (proj1 (first_answer_recorded {["p1"]} [answer 1 "noa" 0] [answer 3 "dana" 4]
                   (answer 2 "dana" 2)
                   {| pa_poll_id := "p1";
                      pa_user := {| u_id := 2; u_username := Some "dana";
                                    u_first_name := None |};
                      pa_option_ids := [2] |}
                   2 [] _ _ _ _ _)).
  - intros poll_id Hin. apply elem_of_singleton in Hin. by subst poll_id.
  - reflexivity.
  - by apply elem_of_singleton.
  - reflexivity.
  - intros earlier pa' Hin Hpa [Hu _].
    apply list_elem_of_singleton in Hin. subst earlier.
    injection Hpa as <-. discriminate Hu.
Defined.

(** ** The totals of [aggregate_votes] *)

Lemma lookup_aggregate_votes (poll_votes : list (string * Vote))
    (existing : gmap string Z) (k : string) :
  aggregate_votes poll_votes existing !! k =
  match votes_of k poll_votes with
  | [] => existing !! k
  | _ :: _ => Some (default 0 (existing !! k) + sum_values (votes_of k poll_votes))
  end.
Proof.
  unfold aggregate_votes, votes_of. revert existing.
  induction poll_votes as [| item poll_votes IH]; intros existing; [reflexivity |].
  cbn [fold_left]. rewrite IH, lookup_add_vote, filter_cons.
  destruct (decide (v_username (snd item) = k)) as [Hk | Hk].
  - cbn [default sum_values foldr].
    destruct (filter _ poll_votes) as [| item' rest]; cbn; f_equal; lia.
  - reflexivity.
Qed.

Lemma sum_values_Permutation (l l' : list (string * Vote)) :
  l ≡ₚ l' -> sum_values l = sum_values l'.
Proof.
  unfold sum_values.
  induction 1 as [| x l l' _ IH | x y l | l l' l'' _ IH1 _ IH2]; cbn; lia.
Qed.

(** X4. [aggregate_votes] leaves the score of a respondent without a
    recorded vote as it was, absent if it was absent; for a respondent
    with recorded votes the new score is the old one, or 0, plus the sum
    of the values of those votes. *)
Theorem aggregate_votes_totals (poll_votes : list (string * Vote))
    (existing : gmap string Z) (username : string) :
  (votes_of username poll_votes = [] ->
   aggregate_votes poll_votes existing !! username = existing !! username) /\
  (votes_of username poll_votes <> [] ->
   aggregate_votes poll_votes existing !! username
   = Some (default 0 (existing !! username)
           + sum_values (votes_of username poll_votes))).
Proof.
  rewrite lookup_aggregate_votes.
  destruct (votes_of username poll_votes) as [| item rest]; split; done.
Qed.

(** X5. The result of [aggregate_votes] does not depend on the order of
    the entries of [poll_votes]. *)
Theorem aggregate_votes_order (poll_votes poll_votes' : list (string * Vote))
    (existing : gmap string Z) :
  poll_votes ≡ₚ poll_votes' ->
  aggregate_votes poll_votes existing = aggregate_votes poll_votes' existing.
Proof.
  intros Hperm. apply map_eq. intros k. rewrite !lookup_aggregate_votes.
  assert (Hf : votes_of k poll_votes ≡ₚ votes_of k poll_votes')
    by (unfold votes_of; by rewrite Hperm).
  rewrite (sum_values_Permutation _ _ Hf).
  destruct (votes_of k poll_votes) as [| x l].
  - apply Permutation_nil_l in Hf. by rewrite <- Hf.
  - destruct (votes_of k poll_votes') as [| x' l'];
      [by apply Permutation_nil_r in Hf | reflexivity].
Qed.

Lemma aggregate_votes_totals_witness :
  let poll_votes :=
    [("dana_p1", {| v_username := "dana"; v_poll_id := "p1"; vote_value := 3 |});
     ("noa_p1", {| v_username := "noa"; v_poll_id := "p1"; vote_value := 6 |});
     ("dana_p2", {| v_username := "dana"; v_poll_id := "p2"; vote_value := 2 |})] in
  let existing : gmap string Z := {["dana" := 4]} in
  aggregate_votes poll_votes existing !! "dana"
  = Some (default 0 (existing !! "dana") + sum_values (votes_of "dana" poll_votes)) /\
  aggregate_votes poll_votes existing !! "lea" = existing !! "lea".
Proof.
  intros poll_votes existing. split.
  - apply (proj2 (aggregate_votes_totals poll_votes existing "dana")).
    intros Habs. vm_compute in Habs. discriminate Habs.
  - apply (proj1 (aggregate_votes_totals poll_votes existing "lea")).
    vm_compute. reflexivity.
Defined.

Lemma aggregate_votes_order_witness :
  let dana := ("dana_p1", {| v_username := "dana"; v_poll_id := "p1"; vote_value := 3 |}) in
  let noa := ("noa_p1", {| v_username := "noa"; v_poll_id := "p1"; vote_value := 6 |}) in
  aggregate_votes [dana; noa] ∅ = aggregate_votes [noa; dana] ∅.
Proof.
  intros dana noa. apply aggregate_votes_order. apply perm_swap.
Defined.

(** ** Expiry at successive dates *)

Lemma Data_eq (d1 d2 : Data) :
  current_week_start d1 = current_week_start d2 ->
  active_polls d1 = active_polls d2 ->
  votes d1 = votes d2 ->
  processed_polls d1 = processed_polls d2 ->
  last_update_id d1 = last_update_id d2 ->
  d1 = d2.
Proof. destruct d1, d2. cbn. by intros -> -> -> -> ->. Qed.

Section ExpiryAgain.

Variable strptime : string -> option Z.

Lemma to_remove_mono (d d' : Z) (info : PollInfo) :
  d <= d' -> to_remove strptime d info = true -> to_remove strptime d' info = true.
Proof.
  unfold to_remove. intros Hle.
  destruct (date info) as [[| c s] |]; [done | | done].
  destruct (strptime (String c s)) as [poll_date |]; [| done].
  intros Hold. apply Z.ltb_lt in Hold. apply Z.ltb_lt. lia.
Qed.

(** X6. Expiring at a date and then again at the same or a later date
    gives the state that expiring once at the later date gives. *)
Theorem clean_old_polls_again (d d' : Z) (data : Data) :
  d <= d' ->
  clean_old_polls strptime d' (clean_old_polls strptime d data)
  = clean_old_polls strptime d' data.
Proof.
  intros Hle.
  pose proof (fold_remove_poll_frame (polls_to_remove strptime d data) data)
    as (Hv & Hw & Hc).
  pose proof (fold_remove_poll_frame (polls_to_remove strptime d' data) data)
    as (Hv' & Hw' & Hc').
  pose proof (fold_remove_poll_frame
                (polls_to_remove strptime d' (clean_old_polls strptime d data))
                (clean_old_polls strptime d data)) as (Hv'' & Hw'' & Hc'').
  fold (clean_old_polls strptime d data) in Hv, Hw, Hc.
  fold (clean_old_polls strptime d' data) in Hv', Hw', Hc'.
  fold (clean_old_polls strptime d' (clean_old_polls strptime d data))
    in Hv'', Hw'', Hc''.
  assert (Hact : forall k,
    active_polls (clean_old_polls strptime d' (clean_old_polls strptime d data)) !! k
    = active_polls (clean_old_polls strptime d' data) !! k).
  { intros k. rewrite !lookup_clean_old_polls.
    destruct (active_polls data !! k) as [info |]; [| reflexivity].
    destruct (to_remove strptime d info) eqn:Hd; [| reflexivity].
    by rewrite (to_remove_mono d d' info Hle Hd). }
  apply Data_eq.
  - congruence.
  - apply map_eq, Hact.
  - congruence.
  - apply set_eq. intros k.
    rewrite !elem_of_processed_clean_old_polls, lookup_clean_old_polls.
    destruct (active_polls data !! k) as [info |] eqn:Hlook.
    + destruct (to_remove strptime d info) eqn:Hd.
      * pose proof (to_remove_mono d d' info Hle Hd) as Hd'.
        split.
        -- intros [[_ Hno] _]. exfalso. apply Hno. by exists info.
        -- intros [_ Hno]. exfalso. apply Hno. by exists info.
      * split.
        -- intros [[Hin _] Hno]. split; [exact Hin |].
           intros (info' & [= <-] & Hd'). apply Hno. by exists info.
        -- intros [Hin Hno]. split; [split; [exact Hin |] |].
           ++ intros (info' & [= <-] & Habs). congruence.
           ++ intros (info' & [= <-] & Hd'). apply Hno. by exists info.
    + split.
      * intros [[Hin _] _]. split; [exact Hin |].
        intros (info' & Habs & _). discriminate Habs.
      * intros [Hin _]. split; [split; [exact Hin |] |];
          intros (info' & Habs & _); discriminate Habs.
  - congruence.
Qed.

End ExpiryAgain.

Lemma clean_old_polls_again_witness :
  clean_old_polls Calendar.strptime 738961
    (clean_old_polls Calendar.strptime 738960 registry_2024_03_15)
  = clean_old_polls Calendar.strptime 738961 registry_2024_03_15.
Proof.
  apply (clean_old_polls_again Calendar.strptime 738960 738961 registry_2024_03_15).
  lia.
Defined.

(** ** Registration and expiry *)



(** ** The data file *)

(** X11. Saving a state and loading the file gives the state back,
    whatever the order in which the set [processed_polls] was written
    as a list. *)
Theorem load_save_round_trip (listing : list string) (data : Data) :
  listing ≡ₚ elements (processed_polls data) ->
  load_file (Some (save_data_as listing data)) = data.
Proof.
  intros Hperm. unfold load_file. cbn. apply Data_eq; cbn; try reflexivity.
  apply set_eq. intros k. by rewrite elem_of_list_to_set, Hperm, elem_of_elements.
Qed.

Lemma load_save_round_trip_witness :
  load_file (Some (save_data state_42)) = state_42.
Proof.
  apply (load_save_round_trip (elements (processed_polls state_42)) state_42).
  reflexivity.
Defined.

(** ** [get_week_start] along a week *)

(** X12. On the seven days from a Monday to the following Sunday
    [get_week_start] returns the same day, the day before that Monday;
    seven days later it returns a day seven days later. *)
Theorem get_week_start_within_week (monday k : Z) :
  Calendar.weekday monday = 0 ->
  0 <= k <= 6 ->
  get_week_start_monday (monday + k) = monday - 1 /\
  get_week_start (monday + k) = get_week_start monday /\
  get_week_start_monday (monday + k + 7) = get_week_start_monday (monday + k) + 7.
Proof.
  unfold get_week_start, get_week_start_monday, Calendar.weekday.
  intros Hmon Hk.
  pose proof (Z.div_mod (monday + 6) 7 ltac:(lia)) as Hdm.
  rewrite Hmon in Hdm. set (q := (monday + 6) / 7) in *.
  assert (H0 : (monday + k + 6) mod 7 = k).
  { replace (monday + k + 6) with (k + q * 7) by lia.
    rewrite Z.mod_add by lia. apply Z.mod_small. lia. }
  assert (H7 : (monday + k + 7 + 6) mod 7 = k).
  { replace (monday + k + 7 + 6) with (k + (q + 1) * 7) by lia.
    rewrite Z.mod_add by lia. apply Z.mod_small. lia. }
  rewrite H0, H7, Hmon. split; [lia |]. split; [f_equal; lia | lia].
Qed.

Lemma get_week_start_within_week_witness :
  get_week_start_monday (738956 + 4) = 738956 - 1 /\
  get_week_start (738956 + 4) = get_week_start 738956 /\
  get_week_start_monday (738956 + 4 + 7) = get_week_start_monday (738956 + 4) + 7.
Proof.
  apply (get_week_start_within_week 738956 4); [reflexivity | lia].
Defined.

(** ** The order of the weekly summary *)

Lemma insert_vote_perm (x : string * Z) (l : list (string * Z)) :
  insert_vote x l ≡ₚ x :: l.
Proof.
  induction l as [| y l IH]; [reflexivity |]. cbn.
  destruct (snd x <? snd y)%Z; [| reflexivity].
  rewrite IH. apply perm_swap.
Qed.

Lemma insert_vote_descending (x : string * Z) (l : list (string * Z)) :
  descending l -> descending (insert_vote x l).
Proof.
  induction l as [| y l IH]; intros Hd.
  - cbn. split; [| exact I]. intros z Hz. inversion Hz.
  - destruct Hd as [Hy Hd]. cbn [insert_vote].
    destruct (snd x <? snd y)%Z eqn:Hlt.
    + apply Z.ltb_lt in Hlt. split; [| by apply IH].
      intros z Hz. rewrite insert_vote_perm in Hz.
      apply elem_of_cons in Hz as [-> | Hz]; [lia | by apply Hy].
    + apply Z.ltb_ge in Hlt. split; [| by split].
      intros z Hz. apply elem_of_cons in Hz as [-> | Hz]; [exact Hlt |].
      specialize (Hy z Hz). lia.
Qed.

Lemma insert_vote_filter (score : Z) (x : string * Z) (l : list (string * Z)) :
  filter (fun item => snd item = score) (insert_vote x l)
  = filter (fun item => snd item = score) (x :: l).
Proof.
  induction l as [| y l IH]; [reflexivity |]. cbn [insert_vote].
  destruct (snd x <? snd y)%Z eqn:Hlt; [| reflexivity].
  apply Z.ltb_lt in Hlt.
  rewrite (filter_cons _ y), IH, !filter_cons.
  destruct (decide (snd y = score)) as [Hy | Hy];
    destruct (decide (snd x = score)) as [Hx | Hx]; try reflexivity.
  lia.
Qed.

Lemma append_assoc3 (a b c : string) :
  ((a ++ b) ++ c)%string = (a ++ (b ++ c))%string.
Proof.
  induction a as [| x a IH]; [reflexivity |].
  rewrite !append_cons. by rewrite IH.
Qed.

Lemma fold_left_append (l : list (string * Z)) (message : string) :
  fold_left (fun message item => (message ++ summary_line item)%string) l message
  = (message ++ foldr (fun item acc => (summary_line item ++ acc)%string) "" l)%string.
Proof.
  revert message. induction l as [| x l IH]; intros message; cbn [fold_left foldr].
  - induction message as [| c m IHm]; [reflexivity |].
    rewrite append_cons. by rewrite <- IHm.
  - rewrite IH. apply append_assoc3.
Qed.

(** X13. The weekly summary lists the items of [votes] by
    non-increasing score: the sorted list has every item exactly as
    often as [votes] has it, no item comes before one with a higher
    score, and the items of one score keep the order they have in the
    dictionary. The message is the heading followed by one line per item
    in that order, and the other literal when there are no votes. *)
Theorem sorted_votes_order (no_votes heading : string) (items : list (string * Z)) :
  sorted_votes items ≡ₚ items /\
  descending (sorted_votes items) /\
  (forall score,
     filter (fun item => snd item = score) (sorted_votes items)
     = filter (fun item => snd item = score) items) /\
  summary_message no_votes heading items
  = match items with
    | [] => no_votes
    | _ :: _ =>
        (heading ++
         foldr (fun item acc => (summary_line item ++ acc)%string) ""
           (sorted_votes items))%string
    end.
Proof.
  split; [| split; [| split]].
  - unfold sorted_votes. induction items as [| x items IH]; [reflexivity |].
    cbn [foldr]. by rewrite insert_vote_perm, IH.
  - unfold sorted_votes. induction items as [| x items IH]; [exact I |].
    cbn [foldr]. by apply insert_vote_descending.
  - intros score. unfold sorted_votes.
    induction items as [| x items IH]; [reflexivity |].
    cbn [foldr]. rewrite insert_vote_filter, !filter_cons. by rewrite IH.
  - unfold summary_message. destruct items as [| x items]; [reflexivity |].
    apply fold_left_append.
Qed.

(** ** The options of the poll and the values of the votes *)


